(** * One-dimensional inelastic collision: the [Simulation] class of
      [src/inelastic_collision/main.cpp]

    The C++ class stores two [std::vector<Particle>] and a flag, and
    every number in it is a [float].  The embedding keeps that shape:

    - [Particle] and [Simulation] are records with the source's field
      names;
    - each member function is a function on the state
      ([update dt s] is the state after [s.update(dt)]);
    - the arithmetic is reached through the interface [FloatOps], whose
      instance [Binary32.ops] is IEEE 754 single precision (round to
      nearest, ties to even) as specified by the Standard Library's
      [SpecFloat]; laws that do not depend on how numbers behave are
      stated for any instance.

    Every [float] operation is taken to round once, to single precision,
    in the order the source writes it: no fused multiply-add and no wider
    intermediate.  [spec_float] has a single NaN, so NaN payloads are not
    told apart.  *)

From Stdlib Require Import ZArith List Bool Lia.
From Stdlib Require Import QArith Qpower Lqa.
From Stdlib Require Import Floats.SpecFloat.
Import ListNotations.

Local Open Scope Z_scope.

(** ** The arithmetic of [float] *)

(** The operations the class applies to its numbers: [+], [*], [/], the
    comparison [>=] and the literal [0.5f]. *)
Class FloatOps (F : Type) : Type := {
  fadd : F -> F -> F;
  fmul : F -> F -> F;
  fdiv : F -> F -> F;
  fge : F -> F -> bool;
  fhalf : F
}.

(** IEEE 754 binary32, the representation of [float]. *)
Module Binary32.

Definition prec : Z := 24.
Definition emax : Z := 128.

Definition float : Type := spec_float.

Definition add : float -> float -> float := SFadd prec emax.
Definition mul : float -> float -> float := SFmul prec emax.
Definition div : float -> float -> float := SFdiv prec emax.

(** [x >= y]: false as soon as one side is a NaN. *)
Definition ge (x y : float) : bool :=
  match SFcompare x y with
  | Some Gt | Some Eq => true
  | _ => false
  end.

(** [x < y] and [x <= y], used to state the laws; the class itself only
    compares with [>=]. *)
Definition lt (x y : float) : bool := SFltb x y.

(** The float nearest to [m * 2^e]. *)
Definition of_Z_exp (m e : Z) : float := binary_normalize prec emax m e false.

(** The float nearest to the integer [n] (a literal such as [5.0f]). *)
Definition of_Z (n : Z) : float := of_Z_exp n 0.

Definition zero : float := S754_zero false.
Definition neg_zero : float := S754_zero true.
Definition half : float := Eval cbv in of_Z_exp 1 (-1).
Definition pos_inf : float := S754_infinity false.

Definition valid (x : float) : bool := valid_binary prec emax x.

(** A number, as opposed to an infinity or a NaN. *)
Definition is_finite (x : float) : bool :=
  match x with
  | S754_zero _ | S754_finite _ _ _ => true
  | _ => false
  end.

(** The sign bit; a NaN carries none in [spec_float]. *)
Definition sign_bit (x : float) : bool :=
  match x with
  | S754_zero b | S754_infinity b | S754_finite b _ _ => b
  | S754_nan => false
  end.

#[global] Instance ops : FloatOps float :=
  {| fadd := add; fmul := mul; fdiv := div; fge := ge; fhalf := half |}.

End Binary32.

(** ** The data model *)

Section Model.

Context {F : Type} {O : FloatOps F}.

(** [struct Particle { float mass; float velocity; float x_pos; }] *)
Record Particle : Type := mkParticle {
  mass : F;
  velocity : F;
  x_pos : F
}.

(** The private members of [class Simulation]. *)
Record Simulation : Type := mkSimulation {
  particles : list Particle;
  initial : list Particle;
  hasCollided : bool
}.

(** A default-constructed [Simulation]. *)
Definition empty : Simulation :=
  {| particles := []; initial := []; hasCollided := false |}.

(** [addParticle]: [particles.push_back(p)]. *)
Definition addParticle (p : Particle) (s : Simulation) : Simulation :=
  {| particles := particles s ++ [p];
     initial := initial s;
     hasCollided := hasCollided s |}.

(** [reset]: [particles = initial; hasCollided = false]. *)
Definition reset (s : Simulation) : Simulation :=
  {| particles := initial s;
     initial := initial s;
     hasCollided := false |}.

(** [setInitial]: both vectors become copies of the argument. *)
Definition setInitial (init : list Particle) (s : Simulation) : Simulation :=
  {| particles := init;
     initial := init;
     hasCollided := false |}.

(** [kineticEnergy]: [0.5f * p.mass * p.velocity * p.velocity], the
    product associating to the left. *)
Definition kineticEnergy (p : Particle) : F :=
  fmul (fmul (fmul fhalf (mass p)) (velocity p)) (velocity p).

Definition totalKineticEnergy (a b : Particle) : F :=
  fadd (kineticEnergy a) (kineticEnergy b).

(** [handleCollision]: the two energy calls are evaluated and their
    results dropped, as in the source. *)
Definition handleCollision (p1 p2 : Particle) : F :=
  let init_momentum :=
    fadd (fmul (mass p1) (velocity p1)) (fmul (mass p2) (velocity p2)) in
  let final_velocity := fdiv init_momentum (fadd (mass p1) (mass p2)) in
  let _ := totalKineticEnergy p1 p2 in
  let _ := kineticEnergy p1 in
  final_velocity.

(** The body of the loop of [update]: [p.x_pos += p.velocity * dt]. *)
Definition advance (dt : F) (p : Particle) : Particle :=
  {| mass := mass p;
     velocity := velocity p;
     x_pos := fadd (x_pos p) (fmul (velocity p) dt) |}.

(** The loop of [update] over the whole vector. *)
Definition integrate (dt : F) (ps : list Particle) : list Particle :=
  map (advance dt) ps.

(** The particle built between the braces of [Particle combined = ...]. *)
Definition combine (p1 p2 : Particle) : Particle :=
  {| mass := fadd (mass p1) (mass p2);
     velocity := handleCollision p1 p2;
     x_pos := fmul fhalf (fadd (x_pos p1) (x_pos p2)) |}.

(** [update]: the loop, then the guarded merge.  The pattern
    [p1 :: p2 :: _] is [particles.size() >= 2] with [p1 = particles[0]]
    and [p2 = particles[1]]. *)
Definition update (dt : F) (s : Simulation) : Simulation :=
  let moved := integrate dt (particles s) in
  match moved, hasCollided s with
  | p1 :: p2 :: _, false =>
      if fge (x_pos p1) (x_pos p2)
      then {| particles := [combine p1 p2];
              initial := initial s;
              hasCollided := true |}
      else {| particles := moved;
              initial := initial s;
              hasCollided := false |}
  | _, collided =>
      {| particles := moved;
         initial := initial s;
         hasCollided := collided |}
  end.

(** [getParticles]. *)
Definition getParticles (s : Simulation) : list Particle := particles s.

(** Successive [update] calls, one per element of [dts]. *)
Definition updates (dts : list F) (s : Simulation) : Simulation :=
  fold_left (fun st dt => update dt st) dts s.

(** The public operations that change the state, and runs of them. *)
Inductive call : Type :=
| CallAddParticle (p : Particle)
| CallReset
| CallSetInitial (init : list Particle)
| CallUpdate (dt : F).

Definition step (s : Simulation) (c : call) : Simulation :=
  match c with
  | CallAddParticle p => addParticle p s
  | CallReset => reset s
  | CallSetInitial init => setInitial init s
  | CallUpdate dt => update dt s
  end.

Definition run (cs : list call) (s : Simulation) : Simulation :=
  fold_left step cs s.

(** *** Notions used to state the laws *)

(** The collision resolver ran during [s.update(dt)]: the flag went from
    false to true. *)
Definition fires (dt : F) (s : Simulation) : bool :=
  negb (hasCollided s) && hasCollided (update dt s).

(** The state [update] leaves when no merge happens, and the one it
    leaves when the first two particles, once moved, are merged. *)
Definition moved_state (dt : F) (s : Simulation) : Simulation :=
  {| particles := integrate dt (particles s);
     initial := initial s;
     hasCollided := hasCollided s |}.

Definition merged_state (dt : F) (s : Simulation) (p1 p2 : Particle)
  : Simulation :=
  {| particles := [combine (advance dt p1) (advance dt p2)];
     initial := initial s;
     hasCollided := true |}.

(** The comparison of [update], on two particles after they have moved. *)
Definition test_after (dt : F) (p1 p2 : Particle) : bool :=
  fge (x_pos (advance dt p1)) (x_pos (advance dt p2)).

(** The guard and the comparison of [update] read on the stored
    positions, before any move. *)
Definition pending (s : Simulation) : bool :=
  match particles s, hasCollided s with
  | p1 :: p2 :: _, false => fge (x_pos p1) (x_pos p2)
  | _, _ => false
  end.

(** Calls that leave the stored snapshot alone: all but [setInitial]. *)
Definition keeps_snapshot (c : call) : bool :=
  match c with
  | CallSetInitial _ => false
  | _ => true
  end.

(** Calls of a two-body session: [update], [reset], and [setInitial]
    with two particles; never [addParticle]. *)
Definition two_body_call (c : call) : bool :=
  match c with
  | CallAddParticle _ => false
  | CallReset => true
  | CallSetInitial init => Nat.eqb (length init) 2
  | CallUpdate _ => true
  end.

(** Two particles and no collision yet, or one particle and the flag
    set; the snapshot always holds two. *)
Definition two_body_inv (s : Simulation) : Prop :=
  length (initial s) = 2%nat /\
  ((length (particles s) = 2%nat /\ hasCollided s = false) \/
   (length (particles s) = 1%nat /\ hasCollided s = true)).

(** The moves alone, one per element of [dts]. *)
Definition integrations (dts : list F) (ps : list Particle) : list Particle :=
  fold_left (fun l dt => integrate dt l) dts ps.

End Model.

Arguments Particle F : clear implicits.
Arguments Simulation F : clear implicits.
Arguments call F : clear implicits.


(** ** Single-precision instances used in examples *)

Module Scenario.
Import Binary32.

(** A particle whose three fields are integers. *)
Definition P (m v x : Z) : Particle float :=
  {| mass := of_Z m; velocity := of_Z v; x_pos := of_Z x |}.

(** The two particles of [main]. *)
Definition p1 : Particle float := P 5 10 0.
Definition p2 : Particle float := P 2 0 20.

(** [Simulation sim; sim.setInitial({p1, p2});] *)
Definition sim0 : Simulation float := setInitial [p1; p2] empty.

(** A third particle pushed after the set-up. *)
Definition p3 : Particle float := P 1 0 30.
Definition sim3 : Simulation float := addParticle p3 sim0.

(** Two bodies configured in the same place. *)
Definition overlapping : Simulation float :=
  setInitial [P 1 0 5; P 1 0 5] empty.

(** Three bodies, the first level with the second and moving away. *)
Definition retreating : Simulation float :=
  addParticle (P 1 0 9) (setInitial [P 1 (-10) 5; P 1 0 5] empty).

(** The right body moves right; stepping back in time brings it across
    the left one. *)
Definition receding : Simulation float :=
  setInitial [P 1 0 0; P 1 10 5] empty.

(** A light and a heavy body with the same velocity. *)
Definition light : Particle float := P 1 3 0.
Definition heavy : Particle float := P 16777216 3 0.

(** When [p.x_pos + p.velocity * 0.f] is [p.x_pos] again, bit for bit:
    the velocity must be a number (a NaN or infinite velocity times zero
    is a NaN), and a position [-0] survives only next to a negative
    velocity ([-0 + +0] is [+0]); a NaN position stays a NaN. *)
Definition zero_step_fixed (p : Particle float) : bool :=
  match x_pos p with
  | S754_nan => true
  | S754_zero true => is_finite (velocity p) && sign_bit (velocity p)
  | _ => is_finite (velocity p)
  end.

End Scenario.

(** ** Counting calls *)

Section Counting.

Context {F : Type} {O : FloatOps F}.

(** By how much a call that is not a restart lengthens the sequence at
    most: one for [addParticle]. *)
Definition pushes (c : call F) : nat :=
  match c with
  | CallAddParticle _ => 1
  | _ => 0
  end.

(** Calls other than [reset] and [setInitial]. *)
Definition no_restart (c : call F) : bool :=
  match c with
  | CallReset | CallSetInitial _ => false
  | _ => true
  end.

End Counting.

(** ** Special values of single precision *)

Module Special.
Import Binary32.

Definition nan : float := S754_nan.

Definition is_nan (x : float) : bool :=
  match x with
  | S754_nan => true
  | _ => false
  end.

Definition is_zero (x : float) : bool :=
  match x with
  | S754_zero _ => true
  | _ => false
  end.

(** The particle [p] with its position replaced by a NaN. *)
Definition lost (p : Particle float) : Particle float :=
  {| mass := mass p; velocity := velocity p; x_pos := nan |}.

(** A particle at rest: its velocity is [+0] or [-0]. *)
Definition at_rest (p : Particle float) : bool := is_zero (velocity p).

(** Equal as numbers for [>=]: the same value, or two zeros of any sign. *)
Definition same_number (x y : float) : Prop :=
  match x, y with
  | S754_zero _, S754_zero _ => True
  | _, _ => x = y
  end.

End Special.

(** ** The number a float denotes *)

Module Value.
Import Binary32.

(** The rational [(-1)^s * m * 2^e] denoted by a finite float; zero for
    the zeros.  Infinities and NaN denote no number: every use below is
    guarded by [is_finite]. *)
Definition B2Q (x : float) : Q :=
  match x with
  | S754_finite s m e =>
      ((if s then Zneg m else Zpos m) # 1) * Qpower (2 # 1) e
  | _ => 0
  end.

(** [x == y] on floats. *)
Definition eqb (x y : float) : bool := SFeqb x y.

(** The float [r] is a well-formed finite float that denotes exactly the
    rational [q]: the operation that produced it neither rounded nor
    overflowed. *)
Definition exactly (r : float) (q : Q) : bool :=
  valid r && is_finite r && Qeq_bool (B2Q r) q.

Definition exact_add (x y : float) : bool :=
  exactly (add x y) (B2Q x + B2Q y).

Definition exact_mul (x y : float) : bool :=
  exactly (mul x y) (B2Q x * B2Q y).

Definition exact_div (x y : float) : bool :=
  exactly (div x y) (B2Q x / B2Q y).

(** [0.5f * m * v * v], as [kineticEnergy] evaluates it, is exact at each
    of its three products. *)
Definition exact_energy (m v : float) : bool :=
  exact_mul half m
  && exact_mul (mul half m) v
  && exact_mul (mul (mul half m) v) v.

(** Every operation that enters the comparison of the energies before
    and after the merge of [a] and [b] is exact: the five of
    [handleCollision] (the sum of the masses included), the three of the
    energy of the merged particle, the three of the energy of each body
    and the sum of these two. *)
Definition exact_merge (a b : Particle float) : bool :=
  exact_mul (mass a) (velocity a)
  && exact_mul (mass b) (velocity b)
  && exact_add (mul (mass a) (velocity a)) (mul (mass b) (velocity b))
  && exact_add (mass a) (mass b)
  && exact_div (add (mul (mass a) (velocity a)) (mul (mass b) (velocity b)))
               (add (mass a) (mass b))
  && exact_energy (add (mass a) (mass b)) (handleCollision a b)
  && exact_energy (mass a) (velocity a)
  && exact_energy (mass b) (velocity b)
  && exact_add (kineticEnergy a) (kineticEnergy b).

End Value.

(** ** The driver: [main]

    The window, the event queue and the clock belong to SFML.  One pass of
    the outer [while] is a function of what they hand over during that
    pass: the events [pollEvent] returns until it returns nothing, and the
    seconds [clock.restart().asSeconds()] returns if it is called.  What the
    pass hands back is the list of calls it makes on the window. *)

Module Driver.
Import Binary32.

Definition sub : float -> float -> float := SFsub prec emax.

(** The scancodes and events [main] tells apart. *)
Inductive Scancode : Type :=
| Space
| R
| OtherKey.

Inductive Event : Type :=
| Closed
| KeyPressed (scancode : Scancode)
| OtherEvent.

(** [sf::Color(r, g, b)]. *)
Record Color : Type := mkColor {
  red : Z;
  green : Z;
  blue : Z
}.

(** The calls on [window] that put something on the screen. *)
Inductive DrawCall : Type :=
| Clear (c : Color)
| DrawRectangle (width height : float) (x y : float) (fill : Color)
| DrawCircle (radius : float) (origin_x origin_y : float) (x y : float)
    (fill : Color)
| Display.

(** The locals of [main] that change: [sim], [playing], and whether the
    window is open. *)
Record State : Type := mkState {
  sim : Simulation float;
  playing : bool;
  isOpen : bool
}.

Definition pixelsPerMeter : float := of_Z 10.
Definition baselineY : float := of_Z 140.
Definition startX : float := of_Z 50.

(** The literal [0.2f], the single nearest to one fifth. *)
Definition point_two : float := S754_finite false 13421773 (-26).

Definition background : Color := mkColor 20 24 28.
Definition grey : Color := mkColor 120 120 120.
Definition first_colour : Color := mkColor 70 180 255.
Definition other_colour : Color := mkColor 255 140 70.

(** The state when the outer loop is entered. *)
Definition start : State :=
  {| sim := setInitial [Scenario.p1; Scenario.p2] empty;
     playing := true;
     isOpen := true |}.

(** The body of the inner [while] for one event. *)
Definition handleEvent (d : State) (e : Event) : State :=
  match e with
  | Closed =>
      {| sim := sim d; playing := playing d; isOpen := false |}
  | KeyPressed Space =>
      {| sim := sim d; playing := negb (playing d); isOpen := isOpen d |}
  | KeyPressed R =>
      {| sim := reset (sim d); playing := playing d; isOpen := isOpen d |}
  | KeyPressed OtherKey => d
  | OtherEvent => d
  end.

(** The inner [while]. *)
Definition pollEvents (events : list Event) (d : State) : State :=
  fold_left handleEvent events d.

(** [float dt = playing ? clock.restart().asSeconds() : 0.f;
     if (playing) sim.update(dt);] *)
Definition advanceSimulation (elapsed : float) (d : State) : State :=
  let dt := if playing d then elapsed else zero in
  if playing d
  then {| sim := update dt (sim d); playing := playing d; isOpen := isOpen d |}
  else d.

(** The body of the drawing loop for index [i]. *)
Definition circle (i : nat) (p : Particle float) : DrawCall :=
  let x := add startX (mul (x_pos p) pixelsPerMeter) in
  let radius := add (of_Z 10) (mass p) in
  DrawCircle radius radius radius
             x (sub baselineY (mul radius point_two))
             (if Nat.eqb i 0 then first_colour else other_colour).

(** The drawing loop from index [i] on. *)
Fixpoint circles (i : nat) (ps : list (Particle float)) : list DrawCall :=
  match ps with
  | [] => []
  | p :: rest => circle i p :: circles (S i) rest
  end.

(** From [window.clear] to [window.display]. *)
Definition draw (d : State) : list DrawCall :=
  Clear background
  :: DrawRectangle (of_Z 800) (of_Z 2) startX (add baselineY (of_Z 15)) grey
  :: circles 0 (getParticles (sim d)) ++ [Display].

(** One pass of the outer [while]. *)
Definition frame (input : list Event * float) (d : State)
  : State * list DrawCall :=
  let d' := advanceSimulation (snd input) (pollEvents (fst input) d) in
  (d', draw d').

(** The outer [while] over the given passes; it is left as soon as the
    window is closed.  The result is the last state and what each pass
    drew. *)
Fixpoint mainLoop (inputs : list (list Event * float)) (d : State)
  : State * list (list DrawCall) :=
  match inputs with
  | [] => (d, [])
  | input :: rest =>
      if isOpen d
      then let (d', drawn) := frame input d in
           let (d'', more) := mainLoop rest d' in
           (d'', drawn :: more)
      else (d, [])
  end.

Definition is_space (e : Event) : bool :=
  match e with
  | KeyPressed Space => true
  | _ => false
  end.

Definition is_reset (e : Event) : bool :=
  match e with
  | KeyPressed R => true
  | _ => false
  end.


(** The simulation of [main]: the snapshot is the pair given at set-up
    and the two-body invariant holds. *)
Definition main_inv (d : State) : Prop :=
  initial (sim d) = [Scenario.p1; Scenario.p2] /\ two_body_inv (sim d).

End Driver.

(** ** Laws that hold for any arithmetic *)

Section Laws.

Context {F : Type} {O : FloatOps F}.

Implicit Types (s : Simulation F) (p : Particle F) (dt : F).

(** *** The shape of [update] *)

Lemma update_unfold dt s :
  update dt s =
  match particles s, hasCollided s with
  | p1 :: p2 :: _, false =>
      if test_after dt p1 p2 then merged_state dt s p1 p2 else moved_state dt s
  | _, _ => moved_state dt s
  end.
Proof.
  unfold update, moved_state, merged_state, test_after, integrate.
  destruct s as [ps ini c]; cbn [particles initial hasCollided].
  destruct ps as [|p1 [|p2 rest]]; destruct c; reflexivity.
Qed.

Lemma update_collided dt s :
  hasCollided s = true -> update dt s = moved_state dt s.
Proof.
  intros Hc. rewrite update_unfold, Hc.
  destruct (particles s) as [|p1 [|p2 rest]]; reflexivity.
Qed.

Lemma update_merge dt s p1 p2 rest :
  particles s = p1 :: p2 :: rest -> hasCollided s = false ->
  test_after dt p1 p2 = true ->
  update dt s = merged_state dt s p1 p2.
Proof.
  intros Hp Hc Ht. rewrite update_unfold, Hp, Hc, Ht. reflexivity.
Qed.

Lemma update_no_merge dt s p1 p2 rest :
  particles s = p1 :: p2 :: rest ->
  test_after dt p1 p2 = false ->
  update dt s = moved_state dt s.
Proof.
  intros Hp Ht. rewrite update_unfold, Hp, Ht.
  destruct (hasCollided s); reflexivity.
Qed.

Lemma update_initial dt s : initial (update dt s) = initial s.
Proof.
  rewrite update_unfold.
  destruct (particles s) as [|p1 [|p2 rest]]; destruct (hasCollided s);
    try reflexivity.
  destruct (test_after dt p1 p2); reflexivity.
Qed.

Lemma integrate_length dt (ps : list (Particle F)) :
  length (integrate dt ps) = length ps.
Proof. apply length_map. Qed.

(** The flag flips exactly under the guard and the comparison. *)
Lemma fires_spec dt s :
  fires dt s = true <->
  hasCollided s = false /\
  exists p1 p2 rest,
    particles s = p1 :: p2 :: rest /\ test_after dt p1 p2 = true.
Proof.
  unfold fires. rewrite update_unfold. split.
  - intros H. apply andb_true_iff in H as [Hn Hu].
    apply negb_true_iff in Hn. rewrite Hn in Hu. split; [exact Hn|].
    destruct (particles s) as [|p1 [|p2 rest]]; cbn in Hu;
      try (rewrite Hn in Hu; discriminate).
    destruct (test_after dt p1 p2) eqn:Ht.
    + now exists p1, p2, rest.
    + cbn in Hu. rewrite Hn in Hu. discriminate.
  - intros [Hc (p1 & p2 & rest & Hp & Ht)].
    rewrite Hp, Hc, Ht. reflexivity.
Qed.

Lemma fires_collided dt s : hasCollided s = true -> fires dt s = false.
Proof. intros Hc. unfold fires. rewrite Hc. reflexivity. Qed.

(** A merge leaves one particle; anything else keeps the count. *)
Lemma update_length dt s :
  length (particles (update dt s)) =
  if fires dt s then 1%nat else length (particles s).
Proof.
  destruct (fires dt s) eqn:Hf.
  - apply fires_spec in Hf as [Hc (p1 & p2 & rest & Hp & Ht)].
    rewrite (update_merge dt s p1 p2 rest Hp Hc Ht). reflexivity.
  - unfold fires in Hf. rewrite update_unfold in *.
    destruct (particles s) as [|p1 [|p2 rest]] eqn:Hp;
      destruct (hasCollided s) eqn:Hc; cbn [moved_state particles];
      rewrite ?integrate_length, ?Hp; try reflexivity.
    destruct (test_after dt p1 p2); cbn in Hf; [discriminate|].
    cbn [moved_state particles]. now rewrite integrate_length, Hp.
Qed.

(** *** The snapshot *)

Lemma step_initial s (c : call F) :
  keeps_snapshot c = true -> initial (step s c) = initial s.
Proof.
  destruct c; cbn [keeps_snapshot step]; intros H;
    try discriminate; try reflexivity.
  apply update_initial.
Qed.

Lemma run_initial (cs : list (call F)) : forall s,
  forallb keeps_snapshot cs = true -> initial (run cs s) = initial s.
Proof.
  induction cs as [|c cs IH]; intros s H; cbn [forallb] in H.
  - reflexivity.
  - apply andb_true_iff in H as [Hc Hcs].
    unfold run in *. cbn [fold_left].
    rewrite (IH _ Hcs). now apply step_initial.
Qed.

Lemma updates_initial (dts : list F) :
  forall s, initial (updates dts s) = initial s.
Proof.
  induction dts as [|dt dts IH]; intros s; [reflexivity|].
  unfold updates in *. cbn [fold_left]. rewrite IH. apply update_initial.
Qed.

(** *** After the merge *)

Lemma updates_collided (dts : list F) : forall s,
  hasCollided s = true ->
  updates dts s =
  {| particles := integrations dts (particles s);
     initial := initial s;
     hasCollided := true |}.
Proof.
  induction dts as [|dt dts IH]; intros s Hc.
  - destruct s as [ps ini c]; cbn in *. now subst c.
  - unfold updates, integrations in *. cbn [fold_left].
    rewrite (update_collided dt s Hc).
    rewrite IH by (cbn; exact Hc). reflexivity.
Qed.

Lemma integrations_length (dts : list F) : forall ps : list (Particle F),
  length (integrations dts ps) = length ps.
Proof.
  induction dts as [|dt dts IH]; intros ps; [reflexivity|].
  unfold integrations in *. cbn [fold_left].
  now rewrite IH, integrate_length.
Qed.

(** *** The two-body invariant *)

Lemma two_body_step s (c : call F) :
  two_body_call c = true -> two_body_inv s -> two_body_inv (step s c).
Proof.
  unfold two_body_inv.
  intros Hc [Hi Hs]. destruct c as [q| |init|dt]; cbn [two_body_call] in Hc.
  - discriminate.
  - cbn. split; [exact Hi|]. left. now split.
  - apply Nat.eqb_eq in Hc. cbn. split; [exact Hc|]. left. now split.
  - cbn [step]. rewrite update_initial. split; [exact Hi|].
    pose proof (update_length dt s) as Hl.
    destruct (fires dt s) eqn:Hf.
    + right. split; [exact Hl|].
      unfold fires in Hf. apply andb_true_iff in Hf. tauto.
    + destruct Hs as [[Hn Hc']|[Hn Hc']].
      * left. split; [congruence|].
        unfold fires in Hf. rewrite Hc' in Hf. cbn in Hf. exact Hf.
      * right. split; [congruence|].
        rewrite (update_collided dt s Hc'). exact Hc'.
Qed.

Lemma two_body_run (cs : list (call F)) : forall s,
  forallb two_body_call cs = true -> two_body_inv s ->
  two_body_inv (run cs s).
Proof.
  induction cs as [|c cs IH]; intros s H Hinv; cbn [forallb] in H.
  - exact Hinv.
  - apply andb_true_iff in H as [Hc Hcs].
    unfold run in *. cbn [fold_left].
    apply IH; [exact Hcs|]. now apply two_body_step.
Qed.

Lemma two_body_setInitial (a b : Particle F) s :
  two_body_inv (setInitial [a; b] s).
Proof. unfold two_body_inv. cbn. split; [reflexivity|]. left. now split. Qed.

End Laws.

(** ** The merge (claims C1, C2, C8) *)

(** C1.  When the collision fires during [update] on a two-element
    sequence [[a; b]], the sequence becomes the single particle of mass
    [m1 + m2], velocity [(m1*v1 + m2*v2) / (m1 + m2)] and position
    [0.5f * (x1' + x2')], the midpoint of the positions [x' = x + v*dt] the
    two bodies have when the test is made; the flag is set and the
    snapshot is kept. *)
Theorem update_merges_pair {F : Type} {O : FloatOps F}
    (dt : F) (s : Simulation F) (a b : Particle F) :
  particles s = [a; b] ->
  fires dt s = true ->
  update dt s =
  {| particles :=
       [ {| mass := fadd (mass a) (mass b);
            velocity :=
              fdiv (fadd (fmul (mass a) (velocity a))
                         (fmul (mass b) (velocity b)))
                   (fadd (mass a) (mass b));
            x_pos :=
              fmul fhalf
                   (fadd (fadd (x_pos a) (fmul (velocity a) dt))
                         (fadd (x_pos b) (fmul (velocity b) dt))) |} ];
     initial := initial s;
     hasCollided := true |}.
Proof.
  intros Hp Hf.
  apply fires_spec in Hf as [Hc (q1 & q2 & rest & Hq & Ht)].
  rewrite Hp in Hq. injection Hq as <- <- <-.
  rewrite (update_merge dt s a b [] Hp Hc Ht).
  reflexivity.
Qed.

(** The run of [main] with a first step of two seconds: the bodies meet at
    20 and merge into mass 7 with the single-precision value of 50/7. *)
Lemma update_merges_pair_witness :
  particles Scenario.sim0 = [Scenario.p1; Scenario.p2] /\
  fires (Binary32.of_Z 2) Scenario.sim0 = true /\
  update (Binary32.of_Z 2) Scenario.sim0 =
  {| particles :=
       [ {| mass := Binary32.of_Z 7;
            velocity := S754_finite false 14979657 (-21);
            x_pos := Binary32.of_Z 20 |} ];
     initial := [Scenario.p1; Scenario.p2];
     hasCollided := true |}.
Proof.
  split; [reflexivity|]. split; [reflexivity|].
  rewrite (update_merges_pair (Binary32.of_Z 2) Scenario.sim0
             Scenario.p1 Scenario.p2); reflexivity.
Defined.

(** C2, as the code has it.  The resolver runs under the guard
    [particles.size() >= 2 && !hasCollided], not under a length of exactly
    two: it fires exactly when the flag is false, there are at least two
    particles, and the particle at index 0, after this call's move, has a
    position [>=] that of the particle at index 1 after its move.  Nothing
    but the two positions enters the comparison. *)
Theorem collision_test_guard {F : Type} {O : FloatOps F}
    (dt : F) (s : Simulation F) :
  fires dt s = true <->
  (2 <= length (particles s))%nat /\
  hasCollided s = false /\
  exists p1 p2 rest,
    particles s = p1 :: p2 :: rest /\
    fge (fadd (x_pos p1) (fmul (velocity p1) dt))
        (fadd (x_pos p2) (fmul (velocity p2) dt)) = true.
Proof.
  rewrite fires_spec. unfold test_after, advance. cbn [x_pos]. split.
  - intros [Hc (p1 & p2 & rest & Hp & Ht)].
    split; [rewrite Hp; cbn; lia|]. split; [exact Hc|].
    now exists p1, p2, rest.
  - intros (_ & Hc & Hex). now split.
Qed.

(** C2 as stated fails: with three particles (one pushed by
    [addParticle] after [main]'s set-up) and a step of two seconds the
    resolver fires although the length is not two. *)
Lemma collision_test_three_particles :
  fires (Binary32.of_Z 2) Scenario.sim3 = true /\
  length (particles Scenario.sim3) = 3%nat /\
  length (particles Scenario.sim3) <> 2%nat.
Proof. split; [reflexivity|]. split; [reflexivity|discriminate]. Qed.

(** C8, with the comparison read where the code makes it.  With three or
    more particles, the flag false, and the particle at index 0 at a
    position [>=] that of index 1 once both have been moved by this call,
    [update] leaves exactly one particle, the combination of the first two
    moved ones; every particle from index 2 on is gone. *)
Theorem merge_discards_tail {F : Type} {O : FloatOps F}
    (dt : F) (s : Simulation F) (p1 p2 p3 : Particle F)
    (rest : list (Particle F)) :
  particles s = p1 :: p2 :: p3 :: rest ->
  hasCollided s = false ->
  fge (x_pos (advance dt p1)) (x_pos (advance dt p2)) = true ->
  particles (update dt s) = [combine (advance dt p1) (advance dt p2)] /\
  length (particles (update dt s)) = 1%nat /\
  hasCollided (update dt s) = true.
Proof.
  intros Hp Hc Ht.
  rewrite (update_merge dt s p1 p2 (p3 :: rest) Hp Hc Ht).
  split; [reflexivity|]. split; reflexivity.
Qed.

Lemma merge_discards_tail_witness :
  particles Scenario.sim3 = [Scenario.p1; Scenario.p2; Scenario.p3] /\
  particles (update (Binary32.of_Z 2) Scenario.sim3) =
    [ {| mass := Binary32.of_Z 7;
         velocity := S754_finite false 14979657 (-21);
         x_pos := Binary32.of_Z 20 |} ] /\
  length (particles (update (Binary32.of_Z 2) Scenario.sim3)) = 1%nat.
Proof.
  split; [reflexivity|].
  destruct (merge_discards_tail (Binary32.of_Z 2) Scenario.sim3
              Scenario.p1 Scenario.p2 Scenario.p3 [])
    as (Hps & Hlen & _); try reflexivity.
  split; [|exact Hlen].
  rewrite Hps. reflexivity.
Defined.

(** C8 read on the positions stored when [update] is called fails: three
    particles, the flag false, the first level with the second (5 >= 5),
    but the first moves left during the call (velocity -10, one second), so
    the comparison made after the move is [-5 >= 5] and nothing is merged. *)
Lemma retreating_first_no_merge :
  particles Scenario.retreating =
    [Scenario.P 1 (-10) 5; Scenario.P 1 0 5; Scenario.P 1 0 9] /\
  hasCollided Scenario.retreating = false /\
  fge (x_pos (Scenario.P 1 (-10) 5)) (x_pos (Scenario.P 1 0 5)) = true /\
  particles (update (Binary32.of_Z 1) Scenario.retreating) =
    [Scenario.P 1 (-10) (-5); Scenario.P 1 0 5; Scenario.P 1 0 9] /\
  hasCollided (update (Binary32.of_Z 1) Scenario.retreating) = false.
Proof. repeat (split; [reflexivity|]). reflexivity. Qed.

(** ** Reset and the snapshot (claims C4, C9) *)

(** C4.  After [setInitial(init)] and any sequence of [update] calls,
    [reset()] makes the particle sequence equal to [init], clears the flag
    and leaves the snapshot as it was, namely [init]. *)
Theorem reset_restores_initial {F : Type} {O : FloatOps F}
    (init : list (Particle F)) (s0 : Simulation F) (dts : list F) :
  particles (reset (updates dts (setInitial init s0))) = init /\
  hasCollided (reset (updates dts (setInitial init s0))) = false /\
  initial (reset (updates dts (setInitial init s0))) =
    initial (updates dts (setInitial init s0)) /\
  initial (updates dts (setInitial init s0)) = init.
Proof.
  cbn [reset particles hasCollided initial].
  rewrite updates_initial. cbn [setInitial initial].
  split; [reflexivity|]. split; [reflexivity|]. split; reflexivity.
Qed.

(** The run of [main] until the merge, then the R key: the two particles
    of the set-up are back, bit for bit. *)
Example reset_after_collision :
  hasCollided (updates [Binary32.of_Z 1; Binary32.of_Z 1] Scenario.sim0)
    = true /\
  reset (updates [Binary32.of_Z 1; Binary32.of_Z 1] Scenario.sim0)
    = Scenario.sim0.
Proof. split; reflexivity. Qed.

(** C9.  [addParticle] appends to the current sequence and touches neither
    the snapshot nor the flag; so a [reset] that follows, directly or after
    further calls other than [setInitial], gives the state a [reset]
    without the addition gives: the added particle is gone. *)
Theorem addParticle_forgotten_by_reset {F : Type} {O : FloatOps F}
    (p : Particle F) (s : Simulation F) (cs : list (call F)) :
  forallb keeps_snapshot cs = true ->
  particles (addParticle p s) = particles s ++ [p] /\
  initial (addParticle p s) = initial s /\
  hasCollided (addParticle p s) = hasCollided s /\
  reset (addParticle p s) = reset s /\
  reset (run cs (addParticle p s)) = reset s /\
  particles (reset (run cs (addParticle p s))) = initial s.
Proof.
  intros Hcs.
  split; [reflexivity|]. split; [reflexivity|]. split; [reflexivity|].
  split; [reflexivity|].
  unfold reset. rewrite (run_initial cs (addParticle p s) Hcs).
  cbn [addParticle initial particles]. split; reflexivity.
Qed.

Lemma addParticle_forgotten_by_reset_witness :
  particles Scenario.sim3 = [Scenario.p1; Scenario.p2; Scenario.p3] /\
  particles
    (reset (run [CallUpdate (Binary32.of_Z 1); CallUpdate (Binary32.of_Z 1)]
                Scenario.sim3)) = [Scenario.p1; Scenario.p2].
Proof.
  split; [reflexivity|].
  destruct (addParticle_forgotten_by_reset Scenario.p3 Scenario.sim0
              [CallUpdate (Binary32.of_Z 1); CallUpdate (Binary32.of_Z 1)])
    as (_ & _ & _ & _ & _ & H); [reflexivity|].
  exact H.
Defined.

(** ** Particle count (claims C5, C6) *)

(** C5, for the calls of a two-body session.  From [setInitial] with two
    particles, through any run of [update], [reset] and two-particle
    [setInitial] calls, the sequence has two particles with the flag false
    or one particle with the flag true; an [update] changes the count only
    by a merge, to one, and cannot merge once the flag is set, so between
    two resets the count goes from two to one at most once and never
    back. *)
Theorem two_body_lengths {F : Type} {O : FloatOps F}
    (a b : Particle F) (s0 : Simulation F) (cs : list (call F)) :
  forallb two_body_call cs = true ->
  two_body_inv (run cs (setInitial [a; b] s0)) /\
  (length (particles (run cs (setInitial [a; b] s0))) = 1%nat \/
   length (particles (run cs (setInitial [a; b] s0))) = 2%nat) /\
  forall dt,
    length (particles (update dt (run cs (setInitial [a; b] s0)))) =
      (if fires dt (run cs (setInitial [a; b] s0)) then 1%nat
       else length (particles (run cs (setInitial [a; b] s0)))) /\
    (length (particles (run cs (setInitial [a; b] s0))) = 1%nat ->
     fires dt (run cs (setInitial [a; b] s0)) = false /\
     length (particles (update dt (run cs (setInitial [a; b] s0)))) = 1%nat).
Proof.
  intros Hcs.
  pose proof (two_body_run cs (setInitial [a; b] s0) Hcs
                (two_body_setInitial a b s0)) as Hinv.
  set (s := run cs (setInitial [a; b] s0)) in *.
  split; [exact Hinv|].
  destruct Hinv as [_ Hs].
  split; [destruct Hs as [[H _]|[H _]]; auto|].
  intros dt. split; [apply update_length|].
  intros H1. destruct Hs as [[H2 _]|[_ Hc]]; [congruence|].
  pose proof (fires_collided dt s Hc) as Hf.
  split; [exact Hf|].
  rewrite update_length, Hf. exact H1.
Qed.

Lemma two_body_lengths_witness :
  length
    (particles
       (run [CallUpdate (Binary32.of_Z 1); CallUpdate (Binary32.of_Z 1);
             CallUpdate (Binary32.of_Z 1); CallReset;
             CallUpdate (Binary32.of_Z 2)]
            (setInitial [Scenario.p1; Scenario.p2] empty))) = 1%nat \/
  length
    (particles
       (run [CallUpdate (Binary32.of_Z 1); CallUpdate (Binary32.of_Z 1);
             CallUpdate (Binary32.of_Z 1); CallReset;
             CallUpdate (Binary32.of_Z 2)]
            (setInitial [Scenario.p1; Scenario.p2] empty))) = 2%nat.
Proof.
  destruct (two_body_lengths Scenario.p1 Scenario.p2 empty
              [CallUpdate (Binary32.of_Z 1); CallUpdate (Binary32.of_Z 1);
               CallUpdate (Binary32.of_Z 1); CallReset;
               CallUpdate (Binary32.of_Z 2)])
    as (_ & H & _); [reflexivity|].
  exact H.
Defined.

(** C5 as stated fails, because [addParticle] is a public operation: after
    [main]'s set-up with two particles one call gives three, and after the
    merge one call brings the count from one back to two with neither
    [reset] nor [setInitial]. *)
Lemma addParticle_breaks_two_body :
  length (particles
    (run [CallSetInitial [Scenario.p1; Scenario.p2];
          CallAddParticle Scenario.p3] empty)) = 3%nat /\
  length (particles
    (run [CallSetInitial [Scenario.p1; Scenario.p2];
          CallUpdate (Binary32.of_Z 2)] empty)) = 1%nat /\
  length (particles
    (run [CallSetInitial [Scenario.p1; Scenario.p2];
          CallUpdate (Binary32.of_Z 2);
          CallAddParticle Scenario.p3] empty)) = 2%nat.
Proof. split; [reflexivity|]. split; reflexivity. Qed.

(** C6.  Once the flag is true, [update] calls only move the particles:
    whatever the time steps, the flag stays true, the sequence is the old
    one moved step by step, its length is unchanged, and the resolver does
    not fire at the next call either. *)
Theorem collided_updates_only_integrate {F : Type} {O : FloatOps F}
    (s : Simulation F) (dts : list F) :
  hasCollided s = true ->
  hasCollided (updates dts s) = true /\
  particles (updates dts s) = integrations dts (particles s) /\
  length (particles (updates dts s)) = length (particles s) /\
  initial (updates dts s) = initial s /\
  forall dt, fires dt (updates dts s) = false.
Proof.
  intros Hc. rewrite (updates_collided dts s Hc).
  cbn [hasCollided particles initial].
  split; [reflexivity|]. split; [reflexivity|].
  split; [apply integrations_length|]. split; [reflexivity|].
  intros dt. now apply fires_collided.
Qed.

Lemma collided_updates_only_integrate_witness :
  hasCollided (update (Binary32.of_Z 2) Scenario.sim0) = true /\
  particles
    (updates [Binary32.of_Z 1; Binary32.of_Z 1]
             (update (Binary32.of_Z 2) Scenario.sim0)) =
    [ {| mass := Binary32.of_Z 7;
         velocity := S754_finite false 14979657 (-21);
         x_pos := S754_finite false 8987794 (-18) |} ].
Proof.
  split; [reflexivity|].
  destruct (collided_updates_only_integrate
              (update (Binary32.of_Z 2) Scenario.sim0)
              [Binary32.of_Z 1; Binary32.of_Z 1])
    as (_ & H & _); [reflexivity|].
  rewrite H. reflexivity.
Defined.

(** ** A zero time step (claim C3) *)

Section ZeroStep.
Import Binary32 Scenario.

Lemma advance_zero_fixed (p : Particle float) :
  advance zero p = p <-> zero_step_fixed p = true.
Proof.
  destruct p as [m v x].
  unfold advance, zero_step_fixed, zero.
  cbn [mass velocity x_pos fadd fmul ops].
  destruct x as [[|]|[|]| |sx mx ex], v as [[|]|[|]| |[|] mv ev];
    cbn; split; intros H; try reflexivity; try discriminate H.
Qed.

Lemma integrate_zero_fixed (ps : list (Particle float)) :
  integrate zero ps = ps <-> forallb zero_step_fixed ps = true.
Proof.
  unfold integrate. induction ps as [|p ps IH]; cbn [map forallb].
  - split; reflexivity.
  - rewrite andb_true_iff, <- IH, <- advance_zero_fixed. split.
    + intros H. injection H as Hp Hps. now split.
    + intros [Hp Hps]. now rewrite Hp, Hps.
Qed.

Lemma test_zero_fixed (p1 p2 : Particle float) :
  zero_step_fixed p1 = true -> zero_step_fixed p2 = true ->
  test_after zero p1 p2 = fge (x_pos p1) (x_pos p2).
Proof.
  intros H1 H2. apply advance_zero_fixed in H1, H2.
  unfold test_after. now rewrite H1, H2.
Qed.

Lemma update_zero_moves (s : Simulation float) :
  update zero s = s -> integrate zero (particles s) = particles s.
Proof.
  rewrite update_unfold. destruct s as [ps ini c].
  unfold moved_state, merged_state. cbn [particles initial hasCollided].
  destruct ps as [|p1 [|p2 rest]], c; cbn beta iota;
    try (intros H; apply (f_equal particles) in H; exact H).
  destruct (test_after zero p1 p2); intros H.
  - apply (f_equal hasCollided) in H. discriminate H.
  - apply (f_equal particles) in H. exact H.
Qed.

(** C3, as the code has it.  [update(0.f)] leaves the state as it was
    exactly when no collision is pending (fewer than two particles, or
    the flag set, or [position[0] >= position[1]] false) and every
    particle's position is reproduced by [x + v * 0.f].  The comparison
    is made whatever [dt] is, and in single precision [v * 0.f] is a NaN
    for an infinite or NaN velocity and [-0 + +0] is [+0]. *)
Theorem update_zero_unchanged (s : Simulation float) :
  update zero s = s <->
  pending s = false /\ forallb zero_step_fixed (particles s) = true.
Proof.
  split.
  - intros H. pose proof (update_zero_moves s H) as Hm.
    apply integrate_zero_fixed in Hm. split; [|exact Hm].
    rewrite update_unfold in H. unfold pending.
    destruct s as [ps ini c]. cbn [particles hasCollided] in *.
    destruct ps as [|p1 [|p2 rest]], c; try reflexivity.
    cbn [forallb] in Hm.
    apply andb_true_iff in Hm as [H1 Hm].
    apply andb_true_iff in Hm as [H2 _].
    rewrite <- (test_zero_fixed p1 p2 H1 H2).
    unfold merged_state in H. cbn beta iota in H.
    destruct (test_after zero p1 p2); [|reflexivity].
    apply (f_equal hasCollided) in H. discriminate H.
  - intros [Hp Hm]. rewrite update_unfold.
    assert (Hs : moved_state zero s = s).
    { unfold moved_state. apply integrate_zero_fixed in Hm. rewrite Hm.
      now destruct s. }
    unfold pending in Hp.
    destruct (particles s) as [|p1 [|p2 rest]] eqn:Hps;
      destruct (hasCollided s); try exact Hs.
    cbn [forallb] in Hm.
    apply andb_true_iff in Hm as [H1 Hm].
    apply andb_true_iff in Hm as [H2 _].
    rewrite (test_zero_fixed p1 p2 H1 H2), Hp. exact Hs.
Qed.

(** C3 as stated fails: two bodies configured in the same place are
    merged by [update(0.f)]; the count goes from two to one and the flag
    from false to true. *)
Lemma update_zero_merges :
  length (particles overlapping) = 2%nat /\
  hasCollided overlapping = false /\
  update zero overlapping =
    {| particles := [P 2 0 5];
       initial := [P 1 0 5; P 1 0 5];
       hasCollided := true |} /\
  update zero overlapping <> overlapping.
Proof.
  split; [reflexivity|]. split; [reflexivity|]. split; [reflexivity|].
  intros H. apply (f_equal hasCollided) in H. discriminate H.
Qed.

(** Two more ways a zero step changes a position with no collision in
    sight: an infinite velocity turns it into a NaN, and a position [-0]
    next to a positive velocity becomes [+0]. *)
Example update_zero_infinite_velocity :
  particles (update zero (setInitial [mkParticle (of_Z 1) pos_inf (of_Z 3)]
                                     empty)) =
  [mkParticle (of_Z 1) pos_inf S754_nan].
Proof. reflexivity. Qed.

Example update_zero_negative_zero :
  particles (update zero (setInitial [mkParticle (of_Z 1) (of_Z 1) neg_zero]
                                     empty)) =
  [mkParticle (of_Z 1) (of_Z 1) zero].
Proof. reflexivity. Qed.

(** In [main]'s configuration a zero step changes nothing. *)
Example update_zero_sim0 : update zero sim0 = sim0.
Proof. reflexivity. Qed.

End ZeroStep.

(** ** A negative time step (claim C10) *)

(** C10.  [update] has no test on the sign of [dt].  For [dt < 0] every
    particle's position becomes [x + v * dt] as for any other step; the
    guard and the comparison are then evaluated on the moved positions, so
    the state is the merged one when they hold and the moved one when the
    resolver does not fire. *)
Theorem update_negative_dt (dt : Binary32.float)
    (s : Simulation Binary32.float) :
  Binary32.lt dt Binary32.zero = true ->
  integrate dt (particles s) =
    map (fun p => {| mass := mass p;
                     velocity := velocity p;
                     x_pos := Binary32.add (x_pos p)
                                (Binary32.mul (velocity p) dt) |})
        (particles s) /\
  (fires dt s = false ->
   update dt s = {| particles := integrate dt (particles s);
                    initial := initial s;
                    hasCollided := hasCollided s |}) /\
  (forall p1 p2 rest,
     particles s = p1 :: p2 :: rest ->
     hasCollided s = false ->
     Binary32.ge
       (Binary32.add (x_pos p1) (Binary32.mul (velocity p1) dt))
       (Binary32.add (x_pos p2) (Binary32.mul (velocity p2) dt)) = true ->
     fires dt s = true /\
     update dt s =
       {| particles := [combine (advance dt p1) (advance dt p2)];
          initial := initial s;
          hasCollided := true |}).
Proof.
  intros _. split; [reflexivity|]. split.
  - intros Hf. change (update dt s = moved_state dt s).
    rewrite update_unfold.
    destruct (particles s) as [|p1 [|p2 rest]] eqn:Hp;
      destruct (hasCollided s) eqn:Hc; try reflexivity.
    destruct (test_after dt p1 p2) eqn:Ht; [|reflexivity].
    assert (Hfire : fires dt s = true).
    { apply fires_spec. split; [exact Hc|]. now exists p1, p2, rest. }
    congruence.
  - intros p1 p2 rest Hp Hc Ht.
    change (test_after dt p1 p2 = true) in Ht. split.
    + apply fires_spec. split; [exact Hc|]. now exists p1, p2, rest.
    + apply (update_merge dt s p1 p2 rest Hp Hc Ht).
Qed.

(** Backward integration triggers the merge: the left body rests at 0, the
    right one is at 5 moving right at 10; a step of -1 puts the right body
    at -5, and [0 >= -5]. *)
Lemma update_negative_dt_witness :
  Binary32.lt (Binary32.of_Z (-1)) Binary32.zero = true /\
  pending Scenario.receding = false /\
  fires (Binary32.of_Z (-1)) Scenario.receding = true /\
  update (Binary32.of_Z (-1)) Scenario.receding =
    {| particles :=
         [ {| mass := Binary32.of_Z 2;
              velocity := Binary32.of_Z 5;
              x_pos := S754_finite true 10485760 (-22) |} ];
       initial := [Scenario.P 1 0 0; Scenario.P 1 10 5];
       hasCollided := true |}.
Proof.
  split; [reflexivity|]. split; [reflexivity|].
  destruct (update_negative_dt (Binary32.of_Z (-1)) Scenario.receding)
    as (_ & _ & H); [reflexivity|].
  destruct (H (Scenario.P 1 0 0) (Scenario.P 1 10 5) [])
    as [Hf Hu]; try reflexivity.
  split; [exact Hf|]. rewrite Hu. reflexivity.
Defined.


(** ** Kinetic energy at the merge (claim C7) *)

Section EnergyAlgebra.

Local Open Scope Q_scope.






End EnergyAlgebra.

(** ** Comparison of well-formed floats *)

Section CompareValue.

Import Binary32 Value.



Local Open Scope Q_scope.










End CompareValue.

(** ** Energy when nothing rounds (claim C7) *)

Section EnergyWhenExact.

Import Binary32 Value.
Local Open Scope Q_scope.










(** Two equal bodies: the merge changes neither the velocity nor the
    energy. *)
Example energy_kept_when_equal :
  exact_merge (Scenario.P 2 3 0) (Scenario.P 2 3 0) = true /\
  eqb (kineticEnergy (combine (Scenario.P 2 3 0) (Scenario.P 2 3 0)))
      (totalKineticEnergy (Scenario.P 2 3 0) (Scenario.P 2 3 0)) = true.
Proof. split; reflexivity. Qed.

End EnergyWhenExact.

(** Overflow: masses [3 * 2^126] and 1, velocities 1.5 and 0.  The
    momentum overflows, the merged velocity and energy are [+inf], and the
    sum of the two energies before the merge is finite. *)
Example energy_overflow_binary32 :
  kineticEnergy
    (combine (mkParticle (Binary32.of_Z_exp 3 126) (Binary32.of_Z_exp 3 (-1))
                         Binary32.zero)
             (Scenario.P 1 0 0)) = Binary32.pos_inf /\
  Binary32.is_finite
    (totalKineticEnergy
       (mkParticle (Binary32.of_Z_exp 3 126) (Binary32.of_Z_exp 3 (-1))
                   Binary32.zero)
       (Scenario.P 1 0 0)) = true /\
  Value.exact_merge
    (mkParticle (Binary32.of_Z_exp 3 126) (Binary32.of_Z_exp 3 (-1))
                Binary32.zero)
    (Scenario.P 1 0 0) = false.
Proof. split; [reflexivity|]. split; reflexivity. Qed.

(** The rounding counterexample has inexact operations too. *)
Example energy_rounding_not_exact :
  Value.exact_merge Scenario.light Scenario.heavy = false.
Proof. reflexivity. Qed.


(** Equality of the two energies without equal velocities: mass 2^24 at
    velocity 1 absorbs mass 1 at rest without any change in single
    precision. *)
Example energy_equal_binary32 :
  kineticEnergy (combine (Scenario.P 16777216 1 0) (Scenario.P 1 0 0)) =
    totalKineticEnergy (Scenario.P 16777216 1 0) (Scenario.P 1 0 0) /\
  Binary32.ge (velocity (Scenario.P 16777216 1 0))
              (velocity (Scenario.P 1 0 0)) = true /\
  Binary32.ge (velocity (Scenario.P 1 0 0))
              (velocity (Scenario.P 16777216 1 0)) = false.
Proof. repeat (split; [reflexivity|]). reflexivity. Qed.

(** The literal [0.5f] is one divided by two. *)
Example half_is_one_over_two :
  Binary32.div (Binary32.of_Z 1) (Binary32.of_Z 2) = Binary32.half /\
  Binary32.valid Binary32.half = true.
Proof. split; reflexivity. Qed.

(** ** Updates that do not merge *)

Section Unmerged.

Context {F : Type} {O : FloatOps F}.

Lemma update_not_fired (dt : F) (s : Simulation F) :
  fires dt s = false -> update dt s = moved_state dt s.
Proof.
  intros Hf. rewrite update_unfold.
  destruct (particles s) as [|p1 [|p2 rest]] eqn:Hp;
    destruct (hasCollided s) eqn:Hc; try reflexivity.
  destruct (test_after dt p1 p2) eqn:Ht; [|reflexivity].
  assert (Hfire : fires dt s = true).
  { apply fires_spec. split; [exact Hc|]. now exists p1, p2, rest. }
  congruence.
Qed.

Lemma fires_sets_flag (dt : F) (s : Simulation F) :
  fires dt s = true -> hasCollided s = false /\ hasCollided (update dt s) = true.
Proof.
  unfold fires. intros H. apply andb_true_iff in H as [Hn Hu].
  apply negb_true_iff in Hn. now split.
Qed.

Lemma updates_flag_stays (dts : list F) (s : Simulation F) :
  hasCollided s = true -> hasCollided (updates dts s) = true.
Proof. intros Hc. now rewrite (updates_collided dts s Hc). Qed.

Lemma integrate_mass (dt : F) (ps : list (Particle F)) :
  map mass (integrate dt ps) = map mass ps.
Proof. unfold integrate. rewrite map_map. reflexivity. Qed.

Lemma integrate_velocity (dt : F) (ps : list (Particle F)) :
  map velocity (integrate dt ps) = map velocity ps.
Proof. unfold integrate. rewrite map_map. reflexivity. Qed.

Lemma integrations_mass_velocity (dts : list F) :
  forall ps : list (Particle F),
  map mass (integrations dts ps) = map mass ps /\
  map velocity (integrations dts ps) = map velocity ps.
Proof.
  induction dts as [|dt dts IH]; intros ps; [now split|].
  unfold integrations in *. cbn [fold_left].
  destruct (IH (integrate dt ps)) as [Hm Hv].
  now rewrite Hm, Hv, integrate_mass, integrate_velocity.
Qed.

(** X6.  As long as the flag reads the same after a run of [update] calls
    as before it, no merge happened in between: the sequence is the old
    one moved step by step, with the same masses and velocities in the
    same order. *)
Theorem unchanged_flag_only_moves (dts : list F) :
  forall s : Simulation F,
  hasCollided (updates dts s) = hasCollided s ->
  particles (updates dts s) = integrations dts (particles s) /\
  map mass (particles (updates dts s)) = map mass (particles s) /\
  map velocity (particles (updates dts s)) = map velocity (particles s).
Proof.
  assert (Hmoves : forall s : Simulation F,
             hasCollided (updates dts s) = hasCollided s ->
             particles (updates dts s) = integrations dts (particles s)).
  { induction dts as [|dt dts IH]; intros s Hflag; [reflexivity|].
    unfold updates, integrations in *. cbn [fold_left] in *.
    destruct (fires dt s) eqn:Hf.
    - apply fires_sets_flag in Hf as [Hc Hu].
      pose proof (updates_flag_stays dts (update dt s) Hu) as Hend.
      unfold updates in Hend. congruence.
    - pose proof (update_not_fired dt s Hf) as Hu.
      rewrite IH; rewrite Hu; [reflexivity|].
      rewrite Hu in Hflag. exact Hflag. }
  intros s Hflag. rewrite (Hmoves s Hflag).
  split; [reflexivity|]. apply integrations_mass_velocity.
Qed.

End Unmerged.

Lemma unchanged_flag_only_moves_witness :
  map mass (particles (updates [Binary32.of_Z 1] Scenario.sim0)) =
    [Binary32.of_Z 5; Binary32.of_Z 2] /\
  map velocity (particles (updates [Binary32.of_Z 1] Scenario.sim0)) =
    [Binary32.of_Z 10; Binary32.of_Z 0].
Proof.
  destruct (unchanged_flag_only_moves [Binary32.of_Z 1] Scenario.sim0)
    as (_ & Hm & Hv); [reflexivity|].
  split; [exact Hm|exact Hv].
Defined.

(** ** Single-precision edge cases of [update] *)

Section Edges.

Import Binary32 Special.

Lemma advance_nan (p : Particle float) : advance nan p = lost p.
Proof.
  destruct p as [m v x]. unfold advance, lost, nan.
  cbn [mass velocity x_pos fadd fmul ops].
  destruct v, x; reflexivity.
Qed.

Lemma advance_lost (dt : float) (p : Particle float) :
  advance dt (lost p) = lost p.
Proof. reflexivity. Qed.

Lemma integrate_lost (dt : float) (ps : list (Particle float)) :
  integrate dt (map lost ps) = map lost ps.
Proof.
  unfold integrate. rewrite map_map. apply map_ext. intros p.
  apply advance_lost.
Qed.

Lemma lost_never_fires (dt : float) (s : Simulation float)
    (ps : list (Particle float)) :
  particles s = map lost ps -> update dt s = s.
Proof.
  intros Hp. rewrite update_unfold. unfold moved_state.
  rewrite Hp, integrate_lost.
  destruct s as [qs ini c]. cbn [particles initial hasCollided] in *.
  subst qs. destruct ps as [|p1 [|p2 rest]]; destruct c; reflexivity.
Qed.

(** X7.  A NaN time step is absorbing.  [update(NaN)] turns every position
    into a NaN without merging anything, and from then on no [update],
    whatever its time step, changes the state: the bodies can no longer
    collide until [reset] or [setInitial]. *)
Theorem nan_step_absorbing (s : Simulation float) (dts : list float) :
  update nan s =
    {| particles := map lost (particles s);
       initial := initial s;
       hasCollided := hasCollided s |} /\
  updates dts (update nan s) = update nan s.
Proof.
  assert (Hu : update nan s =
    {| particles := map lost (particles s);
       initial := initial s;
       hasCollided := hasCollided s |}).
  { rewrite update_unfold. unfold moved_state, integrate.
    rewrite (map_ext _ _ advance_nan).
    destruct (particles s) as [|p1 [|p2 rest]];
      destruct (hasCollided s); try reflexivity.
    unfold test_after. rewrite !advance_nan. reflexivity. }
  split; [exact Hu|]. rewrite Hu.
  induction dts as [|dt dts IH]; [reflexivity|].
  unfold updates in *. cbn [fold_left].
  rewrite (lost_never_fires dt _ (particles s)); [exact IH|reflexivity].
Qed.

Lemma massless_velocity (a b : Particle float) :
  is_zero (mass a) = true -> is_zero (mass b) = true ->
  velocity (combine a b) = nan.
Proof.
  destruct a as [m1 v1 x1], b as [m2 v2 x2].
  cbn [mass]. intros H1 H2.
  destruct m1 as [s1| | |]; try discriminate H1.
  destruct m2 as [s2| | |]; try discriminate H2.
  unfold combine, handleCollision, kineticEnergy, nan.
  cbn [mass velocity x_pos fadd fmul fdiv fhalf ops].
  destruct s1, s2, v1 as [[|]|[|]| |[|] ? ?], v2 as [[|]|[|]| |[|] ? ?];
    reflexivity.
Qed.

(** X8.  Two massless bodies.  When both masses are zero the merged
    velocity is a NaN whatever the two velocities are (the momentum is
    divided by a zero mass), the merged mass is zero again, and the first
    move of the merged particle makes its position a NaN as well. *)
Theorem massless_merge_is_nan (a b : Particle float) (dt : float) :
  is_zero (mass a) = true -> is_zero (mass b) = true ->
  velocity (combine a b) = nan /\
  is_zero (mass (combine a b)) = true /\
  x_pos (advance dt (combine a b)) = nan.
Proof.
  intros H1 H2. pose proof (massless_velocity a b H1 H2) as Hv.
  split; [exact Hv|]. split.
  - destruct a as [m1 v1 x1], b as [m2 v2 x2]. cbn [mass] in *.
    destruct m1 as [[|]| | |], m2 as [[|]| | |];
      try discriminate H1; try discriminate H2; reflexivity.
  - unfold advance. cbn [x_pos]. rewrite Hv.
    cbn [fadd fmul ops]. unfold nan.
    destruct (x_pos (combine a b)); reflexivity.
Qed.

Lemma massless_merge_is_nan_witness :
  velocity (combine (Scenario.P 0 3 5) (Scenario.P 0 1 5)) = nan /\
  x_pos (advance (of_Z 1) (combine (Scenario.P 0 3 5) (Scenario.P 0 1 5)))
    = nan.
Proof.
  destruct (massless_merge_is_nan (Scenario.P 0 3 5) (Scenario.P 0 1 5)
              (of_Z 1))
    as (Hv & _ & Hx); [reflexivity|reflexivity|].
  split; [exact Hv|exact Hx].
Defined.

Lemma advance_at_rest (dt : float) (p : Particle float) :
  at_rest p = true -> is_finite dt = true ->
  same_number (x_pos (advance dt p)) (x_pos p).
Proof.
  destruct p as [m v x]. unfold at_rest, advance.
  cbn [mass velocity x_pos fadd fmul ops]. intros Hv Hdt.
  destruct v as [sv| | |]; try discriminate Hv.
  destruct dt as [sd| | |sd md ed]; try discriminate Hdt;
    destruct sv, sd, x as [[|]|[|]| |sx mx ex]; cbn; reflexivity || exact I.
Qed.

Lemma ge_same_number (x x' y y' : float) :
  same_number x x' -> same_number y y' -> ge x y = ge x' y'.
Proof.
  unfold same_number. intros Hx Hy.
  destruct x as [sx|sx| |sx mx ex], x' as [sx'|sx'| |sx' mx' ex'];
    try discriminate Hx; try (injection Hx; intros; subst);
    destruct y as [sy|sy| |sy my ey], y' as [sy'|sy'| |sy' my' ey'];
    try discriminate Hy; try (injection Hy; intros; subst);
    reflexivity.
Qed.

Lemma integrate_at_rest (dt : float) (ps : list (Particle float)) :
  forallb at_rest (integrate dt ps) = forallb at_rest ps.
Proof.
  unfold integrate. induction ps as [|p ps IH]; [reflexivity|].
  cbn [map forallb]. now rewrite IH.
Qed.

Lemma at_rest_step (dt : float) (s : Simulation float) :
  forallb at_rest (particles s) = true -> is_finite dt = true ->
  pending s = false ->
  update dt s = moved_state dt s /\ pending (update dt s) = false.
Proof.
  intros Hrest Hdt Hpend.
  assert (Hkeep : pending (moved_state dt s) = pending s /\
                  fires dt s = pending s).
  { unfold pending, fires. rewrite update_unfold.
    destruct s as [ps ini c].
    unfold moved_state, merged_state, integrate.
    cbn [particles hasCollided initial] in *.
    destruct ps as [|p1 [|p2 rest]]; cbn [map];
      destruct c; try (split; reflexivity).
    cbn [forallb] in Hrest.
    apply andb_true_iff in Hrest as [H1 Hrest].
    apply andb_true_iff in Hrest as [H2 _].
    pose proof (ge_same_number _ _ _ _ (advance_at_rest dt p1 H1 Hdt)
                  (advance_at_rest dt p2 H2 Hdt)) as Hge.
    change (test_after dt p1 p2 = fge (x_pos p1) (x_pos p2)) in Hge.
    split; [exact Hge|].
    rewrite Hge. cbn [negb andb].
    destruct (fge (x_pos p1) (x_pos p2)); reflexivity. }
  destruct Hkeep as [Hpm Hf]. rewrite Hpend in Hf.
  rewrite (update_not_fired dt s Hf). split; [reflexivity|].
  now rewrite Hpm.
Qed.

(** X9.  Bodies at rest stay as they are.  When every velocity is zero
    and no collision is pending, any run of [update] calls with finite
    time steps leaves the flag, the count, the masses and the velocities
    unchanged, and no collision becomes pending. *)
Theorem at_rest_never_merges (dts : list float) :
  forall s : Simulation float,
  forallb at_rest (particles s) = true ->
  forallb is_finite dts = true ->
  pending s = false ->
  hasCollided (updates dts s) = hasCollided s /\
  length (particles (updates dts s)) = length (particles s) /\
  map mass (particles (updates dts s)) = map mass (particles s) /\
  map velocity (particles (updates dts s)) = map velocity (particles s) /\
  pending (updates dts s) = false.
Proof.
  induction dts as [|dt dts IH]; intros s Hrest Hfin Hpend.
  - repeat (split; [reflexivity|]). exact Hpend.
  - cbn [forallb] in Hfin. apply andb_true_iff in Hfin as [Hdt Hfin].
    destruct (at_rest_step dt s Hrest Hdt Hpend) as [Hu Hp'].
    unfold updates in *. cbn [fold_left].
    assert (Hrest' : forallb at_rest (particles (update dt s)) = true).
    { rewrite Hu. cbn [moved_state particles].
      now rewrite integrate_at_rest. }
    destruct (IH (update dt s) Hrest' Hfin Hp') as (Hc & Hl & Hm & Hv & Hq).
    rewrite Hc, Hl, Hm, Hv.
    split; [now rewrite Hu|].
    split; [rewrite Hu; apply integrate_length|].
    split; [rewrite Hu; apply integrate_mass|].
    split; [rewrite Hu; apply integrate_velocity|exact Hq].
Qed.

(** The stationary pair of masses 1 at 0 and 10, through steps of 1, 0.5
    and 1000 seconds. *)
Lemma at_rest_never_merges_witness :
  hasCollided
    (updates [of_Z 1; half; of_Z 1000]
       (setInitial [Scenario.P 1 0 0; Scenario.P 1 0 10] empty)) = false /\
  length (particles
    (updates [of_Z 1; half; of_Z 1000]
       (setInitial [Scenario.P 1 0 0; Scenario.P 1 0 10] empty))) = 2%nat.
Proof.
  destruct (at_rest_never_merges [of_Z 1; half; of_Z 1000]
              (setInitial [Scenario.P 1 0 0; Scenario.P 1 0 10] empty))
    as (Hc & Hl & _); [reflexivity|reflexivity|reflexivity|].
  split; [exact Hc|exact Hl].
Defined.

End Edges.

(** ** After the merge, with [addParticle] *)

Section AfterMerge.

Context {F : Type} {O : FloatOps F}.

Lemma collided_step (s : Simulation F) (c : call F) :
  hasCollided s = true -> no_restart c = true ->
  hasCollided (step s c) = true /\
  length (particles (step s c)) = (length (particles s) + pushes c)%nat.
Proof.
  intros Hc Hn. destruct c as [p| |init|dt]; try discriminate Hn.
  - cbn [step addParticle hasCollided particles pushes].
    split; [exact Hc|]. now rewrite length_app.
  - cbn [step pushes]. rewrite (update_collided dt s Hc).
    cbn [moved_state hasCollided particles].
    split; [exact Hc|]. rewrite integrate_length. lia.
Qed.

(** X10.  Once the flag is true it stops every later merge, also between
    particles pushed afterwards: through any run of [addParticle] and
    [update] calls the flag stays true and the count is the old count plus
    the number of [addParticle] calls, wherever the particles are. *)
Theorem collided_blocks_later_merges (cs : list (call F)) :
  forall s : Simulation F,
  hasCollided s = true ->
  forallb no_restart cs = true ->
  hasCollided (run cs s) = true /\
  length (particles (run cs s)) =
    (length (particles s) + list_sum (map pushes cs))%nat.
Proof.
  induction cs as [|c cs IH]; intros s Hc Hn.
  - cbn. split; [exact Hc|lia].
  - cbn [forallb] in Hn. apply andb_true_iff in Hn as [Hn Hns].
    destruct (collided_step s c Hc Hn) as [Hc' Hl'].
    unfold run in *. cbn [fold_left map list_sum fold_right].
    destruct (IH (step s c) Hc' Hns) as [IHc IHl].
    split; [exact IHc|]. rewrite IHl, Hl'. unfold list_sum. lia.
Qed.

End AfterMerge.

(** After the merge of [main]'s pair at 20, a particle pushed at the same
    place travels along unmerged. *)
Lemma collided_blocks_later_merges_witness :
  hasCollided (update (Binary32.of_Z 2) Scenario.sim0) = true /\
  length (particles
    (run [CallAddParticle (Scenario.P 1 0 20);
          CallUpdate (Binary32.of_Z 1); CallUpdate (Binary32.of_Z 1)]
         (update (Binary32.of_Z 2) Scenario.sim0))) = 2%nat.
Proof.
  split; [reflexivity|].
  destruct (collided_blocks_later_merges
              [CallAddParticle (Scenario.P 1 0 20);
               CallUpdate (Binary32.of_Z 1); CallUpdate (Binary32.of_Z 1)]
              (update (Binary32.of_Z 2) Scenario.sim0))
    as [_ H]; [reflexivity|reflexivity|].
  rewrite H. reflexivity.
Defined.

(** ** The driver *)

Section DriverLaws.

Import Binary32 Driver.

(** *** What the inner loop does to each local *)

Lemma pollEvents_app (es1 es2 : list Event) (d : State) :
  pollEvents (es1 ++ es2) d = pollEvents es2 (pollEvents es1 d).
Proof. apply fold_left_app. Qed.

Lemma pollEvents_playing (es : list Event) : forall d,
  playing (pollEvents es d) =
  xorb (playing d) (Nat.odd (length (filter is_space es))).
Proof.
  induction es as [|e es IH]; intros d.
  - cbn. now rewrite xorb_false_r.
  - unfold pollEvents in *. cbn [fold_left filter]. rewrite IH.
    destruct e as [|[| |]|]; cbn [handleEvent is_space playing length];
      try reflexivity.
    rewrite Nat.odd_succ, <- Nat.negb_odd.
    destruct (playing d), (Nat.odd _); reflexivity.
Qed.


Lemma pollEvents_sim (es : list Event) : forall d,
  sim (pollEvents es d) =
  if existsb is_reset es then reset (sim d) else sim d.
Proof.
  induction es as [|e es IH]; intros d.
  - reflexivity.
  - unfold pollEvents in *. cbn [fold_left existsb]. rewrite IH.
    destruct e as [|[| |]|]; cbn [handleEvent is_reset sim orb];
      try reflexivity.
    destruct (existsb is_reset es); reflexivity.
Qed.

Lemma frame_state (es : list Event) (t : float) (d : State) :
  fst (frame (es, t) d) = advanceSimulation t (pollEvents es d).
Proof. reflexivity. Qed.

Lemma advanceSimulation_playing (t : float) (d : State) :
  playing (advanceSimulation t d) = playing d.
Proof. unfold advanceSimulation. destruct (playing d) eqn:E; cbn; congruence. Qed.


Lemma advanceSimulation_sim (t : float) (d : State) :
  sim (advanceSimulation t d) =
  if playing d then update t (sim d) else sim d.
Proof. unfold advanceSimulation. destruct (playing d); reflexivity. Qed.

(** X11.  Pause is a skipped call.  While [playing] is false, a pass whose
    events hold neither a Space nor an R press leaves the simulation
    untouched, whatever the clock would have returned: [update] is not
    called at all. *)
Theorem paused_frame_keeps_simulation
    (es : list Event) (t : float) (d : State) :
  playing d = false ->
  existsb is_space es = false ->
  existsb is_reset es = false ->
  sim (fst (frame (es, t) d)) = sim d /\
  playing (fst (frame (es, t) d)) = false.
Proof.
  intros Hp Hs Hr. rewrite frame_state.
  rewrite advanceSimulation_sim, advanceSimulation_playing.
  rewrite pollEvents_playing, pollEvents_sim, Hr, Hp.
  assert (Hnone : filter is_space es = []).
  { clear -Hs. induction es as [|e es IH]; [reflexivity|].
    cbn [existsb filter] in *. apply orb_false_iff in Hs as [He Hes].
    rewrite He. now apply IH. }
  rewrite Hnone. cbn. split; reflexivity.
Qed.

Lemma paused_frame_keeps_simulation_witness :
  sim (fst (frame ([OtherEvent; KeyPressed OtherKey], of_Z 3)
                  {| sim := Scenario.sim0; playing := false;
                     isOpen := true |})) = Scenario.sim0.
Proof.
  destruct (paused_frame_keeps_simulation
              [OtherEvent; KeyPressed OtherKey] (of_Z 3)
              {| sim := Scenario.sim0; playing := false; isOpen := true |})
    as [H _]; [reflexivity|reflexivity|reflexivity|].
  exact H.
Defined.

(** X12.  After a pass, [playing] has been flipped once per Space press
    polled during it: it differs from its old value exactly when the
    number of Space presses is odd, and nothing else changes it. *)
Theorem frame_playing_parity (es : list Event) (t : float) (d : State) :
  playing (fst (frame (es, t) d)) =
  xorb (playing d) (Nat.odd (length (filter is_space es))).
Proof.
  rewrite frame_state, advanceSimulation_playing. apply pollEvents_playing.
Qed.

(** X13.  An R press polled during a pass restores the configuration
    given to [setInitial]: after the pass the simulation is [reset] of the
    old one when the pass ends paused, and one [update] of that when it
    ends playing.  Further R presses and the order of R and Space within
    the pass make no difference. *)
Theorem frame_reset_key (es : list Event) (t : float) (d : State) :
  existsb is_reset es = true ->
  sim (fst (frame (es, t) d)) =
    (if playing (fst (frame (es, t) d))
     then update t (reset (sim d))
     else reset (sim d)) /\
  initial (sim (fst (frame (es, t) d))) = initial (sim d).
Proof.
  intros Hr. rewrite frame_state.
  rewrite advanceSimulation_sim, advanceSimulation_playing.
  rewrite pollEvents_sim, Hr.
  split; [reflexivity|].
  destruct (playing (pollEvents es d));
    [rewrite update_initial; reflexivity|reflexivity].
Qed.

Lemma frame_reset_key_witness :
  particles
    (sim (fst (frame ([KeyPressed R; KeyPressed Space], of_Z 1)
       {| sim := update (of_Z 2) Scenario.sim0; playing := true;
          isOpen := true |}))) = [Scenario.p1; Scenario.p2].
Proof.
  destruct (frame_reset_key [KeyPressed R; KeyPressed Space] (of_Z 1)
       {| sim := update (of_Z 2) Scenario.sim0; playing := true;
          isOpen := true |}) as [H _]; [reflexivity|].
  rewrite H. reflexivity.
Defined.



Lemma closed_loop_stops (inputs : list (list Event * float)) (d : State) :
  isOpen d = false -> mainLoop inputs d = (d, []).
Proof. intros Hc. destruct inputs; cbn [mainLoop]; now rewrite ?Hc. Qed.

(** *** What [main] keeps true *)

Lemma handleEvent_inv (d : State) (e : Event) :
  main_inv d -> main_inv (handleEvent d e).
Proof.
  unfold main_inv. intros [Hi Hinv].
  destruct e as [|[| |]|]; cbn [handleEvent sim]; try (split; assumption).
  split; [exact Hi|].
  apply (two_body_step (sim d) (CallReset (F:=float)) eq_refl Hinv).
Qed.

Lemma pollEvents_inv (es : list Event) : forall d,
  main_inv d -> main_inv (pollEvents es d).
Proof.
  induction es as [|e es IH]; intros d Hd; [exact Hd|].
  unfold pollEvents in *. cbn [fold_left]. apply IH.
  now apply handleEvent_inv.
Qed.

Lemma frame_inv (input : list Event * float) (d : State) :
  main_inv d -> main_inv (fst (frame input d)).
Proof.
  destruct input as [es t]. intros Hd. rewrite frame_state.
  pose proof (pollEvents_inv es d Hd) as [Hi Hinv].
  unfold main_inv. rewrite advanceSimulation_sim.
  destruct (playing (pollEvents es d)); [|now split].
  split; [now rewrite update_initial|].
  apply (two_body_step (sim (pollEvents es d)) (CallUpdate t) eq_refl Hinv).
Qed.

Lemma start_inv : main_inv start.
Proof. split; [reflexivity|]. apply two_body_setInitial. Qed.

Lemma mainLoop_inv (inputs : list (list Event * float)) : forall d,
  main_inv d ->
  main_inv (fst (mainLoop inputs d)) /\
  Forall (fun drawn => exists d', main_inv d' /\ drawn = draw d')
         (snd (mainLoop inputs d)).
Proof.
  induction inputs as [|input inputs IH]; intros d Hd.
  - cbn. split; [exact Hd|constructor].
  - cbn [mainLoop]. destruct (isOpen d).
    + pose proof (frame_inv input d Hd) as Hf.
      destruct (frame input d) as [d' drawn] eqn:E. cbn [fst] in Hf.
      destruct (IH d' Hf) as [IH1 IH2].
      destruct (mainLoop inputs d') as [d'' more]. cbn [fst snd] in *.
      split; [exact IH1|]. constructor; [|exact IH2].
      exists d'. split; [exact Hf|].
      unfold frame in E. injection E as E1 E2. now subst.
    + cbn. split; [exact Hd|constructor].
Qed.

(** X15.  Whatever events and clock readings [main] receives, after any
    number of passes its simulation still has the two particles of the
    set-up as its snapshot, and holds either two particles with the flag
    false or one particle with the flag true: [main] never reaches a third
    particle or an empty sequence. *)
Theorem main_keeps_two_bodies (inputs : list (list Event * float)) :
  initial (sim (fst (mainLoop inputs start))) =
    [Scenario.p1; Scenario.p2] /\
  ((length (particles (sim (fst (mainLoop inputs start)))) = 2%nat /\
    hasCollided (sim (fst (mainLoop inputs start))) = false) \/
   (length (particles (sim (fst (mainLoop inputs start)))) = 1%nat /\
    hasCollided (sim (fst (mainLoop inputs start))) = true)).
Proof.
  destruct (mainLoop_inv inputs start start_inv) as [[Hi [_ Hinv]] _].
  split; [exact Hi|exact Hinv].
Qed.

(** *** What is drawn *)



(** The first pass of [main] with nothing polled and a clock reading of
    one second: the bodies are at 10 and 20, drawn at 150 and 250 with
    radii 15 and 12. *)
Example first_pass_drawn :
  snd (frame ([], of_Z 1) start) =
  [ Clear (mkColor 20 24 28);
    DrawRectangle (of_Z 800) (of_Z 2) (of_Z 50) (of_Z 155)
                  (mkColor 120 120 120);
    DrawCircle (of_Z 15) (of_Z 15) (of_Z 15) (of_Z 150) (of_Z 137)
               (mkColor 70 180 255);
    DrawCircle (of_Z 12) (of_Z 12) (of_Z 12) (of_Z 250)
               (S754_finite false 9017754 (-16))
               (mkColor 255 140 70);
    Display ].
Proof. reflexivity. Qed.

(** The literal [0.2f] is the rounded quotient of one by five, and the
    baseline is drawn at 155. *)
Example driver_constants :
  div (of_Z 1) (of_Z 5) = point_two /\
  valid point_two = true /\
  add baselineY (of_Z 15) = of_Z 155.
Proof. split; [reflexivity|]. split; reflexivity. Qed.

End DriverLaws.
